(** * Kraken: the [Socket<D>] wrapper of [include/Kraken/IO/Socket.h]

    A shallow embedding of the socket class template and of the two flag
    enumerations declared next to it.  The operating system is an arbitrary
    transition system answering system calls; every call the wrapper issues
    is recorded in a trace, so that "returns without calling the kernel" is
    a statement about that trace. *)

From Stdlib Require Import ZArith List String Bool Lia.
From Stdlib Require Import Strings.Byte.
From stdpp Require Import base functions.
Import ListNotations.
Local Open Scope string_scope.
Local Open Scope Z_scope.
Local Open Scope list_scope.

(** ** Constants of the platform headers

    [Socket.h] uses these names through [<sys/socket.h>] and [<errno.h>];
    the numbers are those of Linux (asm-generic errno, glibc bits/socket.h). *)
Module Linux.
Definition EBADF : Z := 9.
Definition EBUSY : Z := 16.
Definition EINVAL : Z := 22.
Definition EMFILE : Z := 24.
Definition EBADFD : Z := 77.

Definition SHUT_RDWR : Z := 2.

Definition SOCK_STREAM : Z := 1.
Definition SOCK_DGRAM : Z := 2.
Definition SOCK_SEQPACKET : Z := 5.

Definition AF_UNIX : Z := 1.
Definition AF_INET : Z := 2.
Definition AF_INET6 : Z := 10.

Definition MSG_OOB : Z := 0x1.
Definition MSG_PEEK : Z := 0x2.
Definition MSG_DONTROUTE : Z := 0x4.
Definition MSG_TRUNC : Z := 0x20.
Definition MSG_DONTWAIT : Z := 0x40.
Definition MSG_EOR : Z := 0x80.
Definition MSG_WAITALL : Z := 0x100.
Definition MSG_CONFIRM : Z := 0x800.
Definition MSG_ERRQUEUE : Z := 0x2000.
Definition MSG_NOSIGNAL : Z := 0x4000.
Definition MSG_MORE : Z := 0x8000.
End Linux.
Import Linux.

(** ** Enumerations

    An enumerator of a C++ enumeration either has an initializer or takes
    the value of the previous enumerator plus one (zero for the first).
    The declarations below keep the enumerators in source order with the
    initializer each one has in [Socket.h]. *)
Inductive initializer : Type :=
| NoInit                    (* [Name,]            *)
| Const (v : Z)             (* [Name = MSG_...,]  a constant of the headers *)
| Alias (name : string).    (* [Name = Earlier,]  an earlier enumerator *)

Definition enum_decl : Type := list (string * initializer).

Fixpoint lookup_enumerator (name : string) (vs : list (string * Z)) : option Z :=
  match vs with
  | [] => None
  | (n, v) :: vs' => if String.eqb n name then Some v else lookup_enumerator name vs'
  end.

(** [enumerate seen next d]: the values of the enumerators of [d], given the
    enumerators already declared and the value an enumerator without an
    initializer would take.  An alias of an undeclared name is ill-formed. *)
Fixpoint enumerate (seen : list (string * Z)) (next : Z) (d : enum_decl)
  : option (list (string * Z)) :=
  match d with
  | [] => Some seen
  | (n, i) :: d' =>
      match
        match i with
        | NoInit => Some next
        | Const v => Some v
        | Alias a => lookup_enumerator a seen
        end
      with
      | Some v => enumerate (seen ++ [(n, v)]) (v + 1) d'
      | None => None
      end
  end.

Definition enum_values (d : enum_decl) : option (list (string * Z)) :=
  enumerate [] 0 d.

Definition enumerator (d : enum_decl) (name : string) : option Z :=
  match enum_values d with
  | Some vs => lookup_enumerator name vs
  | None => None
  end.

(** [enum class ESocketType] *)
Inductive ESocketType : Type := Datagram | SeqPacket | Stream.

Definition int_of_ESocketType (t : ESocketType) : Z :=
  match t with
  | Datagram => SOCK_DGRAM
  | SeqPacket => SOCK_SEQPACKET
  | Stream => SOCK_STREAM
  end.

(** [enum class ESendFlags] *)
Definition ESendFlags_decl : enum_decl :=
  [ ("None", Const 0);
    ("Confirm", Const MSG_CONFIRM);
    ("DoNotRoute", Const MSG_DONTROUTE);
    ("DoNotWait", Const MSG_DONTWAIT);
    ("EndOfRecord", Const MSG_EOR);
    ("More", Const MSG_MORE);
    ("NoSignal", Const MSG_NOSIGNAL);
    ("OutOfBand", Const MSG_OOB);
    ("NonBlock", Alias "DoNotWait") ].

(** [enum class EReceiveFlags].  With glibc every [MSG_*] name is both an
    enumerator of an anonymous enumeration and a macro expanding to itself,
    so the five bare names below declare five new enumerators of
    [EReceiveFlags] that have no initializer. *)
Definition EReceiveFlags_decl : enum_decl :=
  [ ("None", Const 0);
    ("DoNotWait", Const MSG_DONTWAIT);
    ("MSG_ERRQUEUE", NoInit);
    ("MSG_OOB", NoInit);
    ("MSG_PEEK", NoInit);
    ("MSG_TRUNC", NoInit);
    ("MSG_WAITALL", NoInit);
    ("NonBlock", Alias "DoNotWait") ].

(** The value of a flag set is its underlying [int]; [ENUM_FLAGS] gives both
    enumerations the bitwise operators, which act on that value. *)
Definition flags : Type := Z.
Definition flags_or (a b : flags) : flags := Z.lor a b.

(** The platform constant each flag of the receive set is named after. *)
Definition EReceiveFlags_os : list (string * Z) :=
  [ ("None", 0);
    ("DoNotWait", MSG_DONTWAIT);
    ("MSG_ERRQUEUE", MSG_ERRQUEUE);
    ("MSG_OOB", MSG_OOB);
    ("MSG_PEEK", MSG_PEEK);
    ("MSG_TRUNC", MSG_TRUNC);
    ("MSG_WAITALL", MSG_WAITALL);
    ("NonBlock", MSG_DONTWAIT) ].

Definition ESendFlags_os : list (string * Z) :=
  [ ("None", 0);
    ("Confirm", MSG_CONFIRM);
    ("DoNotRoute", MSG_DONTROUTE);
    ("DoNotWait", MSG_DONTWAIT);
    ("EndOfRecord", MSG_EOR);
    ("More", MSG_MORE);
    ("NoSignal", MSG_NOSIGNAL);
    ("OutOfBand", MSG_OOB);
    ("NonBlock", MSG_DONTWAIT) ].

(** The three instantiations named at the end of [Socket.h]
    ([UnixSocket], [IPv4Socket], [IPv6Socket]). *)
Inductive ESocketDomain : Type := Unix | IPv4 | IPv6.

(** ** The operating system

    A pointer to user memory the wrapper never looks into ([void *]) is an
    address, [nullptr] being 0.  A pointer to the storage of an [Address]
    object is modelled by the bytes it points to. *)
Definition nullptr : Z := 0.

Inductive syscall : Type :=
| sys_shutdown (sockfd how : Z)
| sys_close (fd : Z)
| sys_socket (domain type protocol : Z)
| sys_bind (sockfd : Z) (addr : list byte) (addrlen : Z)
| sys_listen (sockfd backlog : Z)
| sys_connect (sockfd : Z) (addr : list byte) (addrlen : Z)
| sys_accept (sockfd : Z) (addr : list byte) (addrlen : Z)
| sys_send (sockfd buf len flags : Z)
| sys_sendto (sockfd buf len flags : Z) (dest_addr : list byte) (addrlen : Z)
| sys_recv (sockfd buf len flags : Z)
| sys_recvfrom (sockfd buf len flags : Z) (src_addr : list byte) (addrlen : Z)
| sys_socketpair (domain type protocol : Z) (sv : Z * Z).

(** What a call leaves behind: its return value and the contents of the
    objects it was given a pointer to (the [sockaddr] buffer, [*addrlen],
    the [sv] array).  A call that does not write one of them hands back
    what it was given. *)
Record reply : Type := mkReply {
  k_ret : Z;
  k_addr : list byte;
  k_addrlen : Z;
  k_sv : Z * Z
}.

(** The kernel is any transition system over some type of worlds; [errno]
    is read from the world. *)
Class Kernel (W : Type) : Type := {
  syscall_step : W -> syscall -> reply * W;
  errno : W -> Z
}.

(** ** Objects *)

(** [File], the base class of [Socket<D>]: [Socket.h] reads and assigns its
    field [m_descriptor]. *)
Record File : Type := mkFile { m_descriptor : Z }.

(** A reference to a socket object. Two references may denote one object. *)
Definition ref : Type := nat.
#[global] Instance ref_eq_dec : EqDecision ref := Nat.eq_dec.

Record State (W : Type) : Type := mkState {
  heap : ref -> File;        (* the socket objects *)
  world : W;                 (* the operating system *)
  trace : list syscall       (* the system calls issued so far, oldest first *)
}.
Arguments mkState {W} _ _ _.
Arguments heap {W} _ _.
Arguments world {W} _.
Arguments trace {W} _.

(** Modelled from the spec: [File::IsOpen] of [Kraken/IO/File.h], which is
    not among the sources.  The resource "exposes open/closed state", and a
    descriptor is "present or absent"; a present descriptor is a
    non-negative [int], the absent one the negative [-EBADFD] that [Pair]
    also uses to fill its array. *)
Definition IsOpen (f : File) : bool := 0 <=? m_descriptor f.

(** [membuf] and [const_membuf] are declared in another header; [Socket.h]
    reads their fields [buffer] and [length]. *)
Record membuf : Type := mkMembuf { buffer : Z; length : Z }.

(** Modelled from the spec: [Address<D>] of [Kraken/IO/Address.h], "a byte
    buffer sized to the domain's maximum endpoint representation" with "a
    logical length". *)
Record Address : Type := mkAddress {
  a_storage : list byte;
  a_length : Z
}.

Definition GetBase (a : Address) : list byte := a_storage a.
Definition GetLength (a : Address) : Z := a_length a.

(** What [Socket<D>] takes from its template argument: the value of
    [(int)D], the capacity constant [Address<D>::s_MaxSize], the validity
    predicate and the default-constructed address. *)
Class AddressOps (D : ESocketDomain) : Type := {
  int_of_domain : Z;
  s_MaxSize : Z;
  IsValid : Address -> bool;
  Address_default : Address
}.

(** Modelled from the spec: [Address<D>::SetLength], "a mutator to record a
    kernel-reported length"; the length is "updated to the kernel-reported
    value (clamped to [s_MaxSize])", which keeps "length never exceeds the
    domain's maximum". *)
Definition SetLength {D} `{AddressOps D} (a : Address) (len : Z) : Address :=
  mkAddress (a_storage a) (Z.min len s_MaxSize).

(** ** The monad of the member functions: state passing over [State W]. *)
Definition M (W A : Type) : Type := State W -> A * State W.

Definition ret {W A} (a : A) : M W A := fun st => (a, st).
Definition bind {W A B} (m : M W A) (k : A -> M W B) : M W B :=
  fun st => let (a, st') := m st in k a st'.

Declare Scope socket_scope.
Notation "'let*' x ':=' m 'in' k" := (bind m (fun x => k))
  (at level 10, x name, m at level 100, k at level 200) : socket_scope.
Notation "m ;; k" := (bind m (fun _ => k))
  (at level 100, k at level 200, right associativity) : socket_scope.
Local Open Scope socket_scope.

Definition result {W A} (m : M W A) (st : State W) : A := fst (m st).
Definition final {W A} (m : M W A) (st : State W) : State W := snd (m st).

Section Primitives.
Context {W : Type} `{Kernel W}.

Definition load (r : ref) : M W File := fun st => (heap st r, st).

(** [o.m_descriptor = d] *)
Definition store_descriptor (r : ref) (d : Z) : M W unit :=
  fun st => (tt, mkState (<[r := mkFile d]> (heap st)) (world st) (trace st)).

Definition sys (c : syscall) : M W reply :=
  fun st =>
    let (r, w) := syscall_step (world st) c in
    (r, mkState (heap st) w (trace st ++ [c])).

Definition get_errno : M W Z := fun st => (errno (world st), st).

(** The kernel's answer to [c] in state [st], and the world after it. *)
Definition answer (st : State W) (c : syscall) : reply :=
  fst (syscall_step (world st) c).
Definition after (st : State W) (c : syscall) : W :=
  snd (syscall_step (world st) c).

(** Modelled from the spec: [File::Close] of [Kraken/IO/File.h], the
    "idempotent release operation", "safe to call on an already-closed
    resource": an open file closes its descriptor and forgets it, a
    closed one is left alone. *)
Definition Close (this : ref) : M W unit :=
  let* self := load this in
  if IsOpen self then
    sys (sys_close (m_descriptor self)) ;;
    store_descriptor this (- EBADFD)
  else ret tt.
End Primitives.

(** ** [template <ESocketDomain D> class Socket : public File]

    A member function takes the reference [this] first.  A parameter of
    type [Address<D> &] that the function may write is passed in and handed
    back next to the return value; [KRAKEN_PRINT] produces no effect the
    wrapper could observe. *)
Section Socket.
Context {W : Type} `{Kernel W}.
Context {D : ESocketDomain} `{AddressOps D}.

(** [void Shutdown()] *)
Definition Shutdown (this : ref) : M W unit :=
  let* self := load this in
  sys (sys_shutdown (m_descriptor self) SHUT_RDWR) ;;
  Close this.

(** [virtual ~Socket()] *)
Definition Socket_destructor (this : ref) : M W unit :=
  let* self := load this in
  if IsOpen self then Shutdown this else ret tt.

(** [int Open(ESocketType type)] *)
Definition Open (this : ref) (type : ESocketType) : M W Z :=
  let* self := load this in
  if IsOpen self then ret (- EBUSY)
  else
    let* r := sys (sys_socket int_of_domain (int_of_ESocketType type) 0) in
    let descriptor := k_ret r in
    if descriptor <? 0 then
      let* e := get_errno in ret (- e)
    else
      store_descriptor this descriptor ;;
      ret 0.

(** [int Bind(const Address<D> &localAddress)] *)
Definition Bind (this : ref) (localAddress : Address) : M W Z :=
  if negb (IsValid localAddress) then ret (- EINVAL)
  else
    let* self := load this in
    let* r := sys (sys_bind (m_descriptor self)
                            (GetBase localAddress) (GetLength localAddress)) in
    let err := k_ret r in
    if negb (err =? 0) then
      let* e := get_errno in ret (- e)
    else ret 0.

(** [int Listen(int backlog)] *)
Definition Listen (this : ref) (backlog : Z) : M W Z :=
  let* self := load this in
  let* r := sys (sys_listen (m_descriptor self) backlog) in
  let err := k_ret r in
  if err <? 0 then
    let* e := get_errno in ret (- e)
  else ret err.

(** [int Connect(const Address<D> &remoteAddress)] *)
Definition Connect (this : ref) (remoteAddress : Address) : M W Z :=
  let* self := load this in
  let* r := sys (sys_connect (m_descriptor self)
                             (GetBase remoteAddress) (GetLength remoteAddress)) in
  let err := k_ret r in
  if negb (err =? 0) then
    let* e := get_errno in ret (- e)
  else ret 0.

(** [int Accept(Socket &o_client, Address<D> &o_clientAddress)] *)
Definition Accept_address (this o_client : ref) (o_clientAddress : Address)
  : M W (Z * Address) :=
  let addressLength := s_MaxSize in
  let* client := load o_client in
  if IsOpen client then ret (- EBUSY, o_clientAddress)
  else
    let* self := load this in
    let* r := sys (sys_accept (m_descriptor self)
                              (GetBase o_clientAddress) addressLength) in
    let descriptor := k_ret r in
    let addressLength := k_addrlen r in
    let o_clientAddress := mkAddress (k_addr r) (a_length o_clientAddress) in
    if descriptor <? 0 then
      let* e := get_errno in ret (- e, o_clientAddress)
    else
      let o_clientAddress := SetLength o_clientAddress addressLength in
      store_descriptor o_client descriptor ;;
      ret (0, o_clientAddress).

(** [int Accept(Socket &o_client)] *)
Definition Accept (this o_client : ref) : M W Z :=
  let wastefulImplementationDetail := Address_default in
  let* ra := Accept_address this o_client wastefulImplementationDetail in
  ret (fst ra).

(** [ssize_t Send(const void *buffer, size_t length, ESendFlags flags)] *)
Definition Send (this : ref) (buffer length : Z) (flags : flags) : M W Z :=
  if buffer =? nullptr then ret (- EINVAL)
  else
    let* self := load this in
    let* r := sys (sys_send (m_descriptor self) buffer length flags) in
    let bytesSent := k_ret r in
    if bytesSent <? 0 then
      let* e := get_errno in ret (- e)
    else ret bytesSent.

(** [ssize_t Send(const void *buffer, size_t length,
                  const Address<D> &destination, ESendFlags flags)] *)
Definition Send_to (this : ref) (buffer length : Z) (destination : Address)
    (flags : flags) : M W Z :=
  if buffer =? nullptr then ret (- EINVAL)
  else
    let* self := load this in
    let* r := sys (sys_sendto (m_descriptor self) buffer length flags
                              (GetBase destination) (GetLength destination)) in
    let bytesSent := k_ret r in
    if bytesSent <? 0 then
      let* e := get_errno in ret (- e)
    else ret bytesSent.

(** [ssize_t Receive(void *o_buffer, size_t length, EReceiveFlags flags)] *)
Definition Receive (this : ref) (o_buffer length : Z) (flags : flags) : M W Z :=
  if o_buffer =? nullptr then ret (- EINVAL)
  else
    let* self := load this in
    let* r := sys (sys_recv (m_descriptor self) o_buffer length flags) in
    let bytesReceived := k_ret r in
    if bytesReceived <? 0 then
      let* e := get_errno in ret (- e)
    else ret bytesReceived.

(** [ssize_t Receive(void *o_buffer, size_t length,
                     Address<D> &o_senderAddress, EReceiveFlags flags)] *)
Definition Receive_from (this : ref) (o_buffer length : Z)
    (o_senderAddress : Address) (flags : flags) : M W (Z * Address) :=
  let addressLength := s_MaxSize in
  if o_buffer =? nullptr then ret (- EINVAL, o_senderAddress)
  else
    let* self := load this in
    let* r := sys (sys_recvfrom (m_descriptor self) o_buffer length flags
                                (GetBase o_senderAddress) addressLength) in
    let bytesReceived := k_ret r in
    let addressLength := k_addrlen r in
    let o_senderAddress := mkAddress (k_addr r) (a_length o_senderAddress) in
    if bytesReceived <? 0 then
      let* e := get_errno in ret (- e, o_senderAddress)
    else
      ret (bytesReceived, SetLength o_senderAddress addressLength).

(** [ssize_t Send(const_membuf mem, ESendFlags flags)] *)
Definition Send_membuf (this : ref) (mem : membuf) (flags : flags) : M W Z :=
  Send this (buffer mem) (length mem) flags.

(** [ssize_t Send(const_membuf mem, const Address<D> &destination,
                  ESendFlags flags)] *)
Definition Send_membuf_to (this : ref) (mem : membuf) (destination : Address)
    (flags : flags) : M W Z :=
  Send_to this (buffer mem) (length mem) destination flags.

(** [ssize_t Receive(membuf o_mem, EReceiveFlags flags)] *)
Definition Receive_membuf (this : ref) (o_mem : membuf) (flags : flags) : M W Z :=
  Receive this (buffer o_mem) (length o_mem) flags.

(** [ssize_t Receive(membuf o_mem, Address<D> &o_senderAddress,
                     EReceiveFlags flags)] *)
Definition Receive_membuf_from (this : ref) (o_mem : membuf)
    (o_senderAddress : Address) (flags : flags) : M W (Z * Address) :=
  Receive_from this (buffer o_mem) (length o_mem) o_senderAddress flags.

(** [static int Pair(ESocketType type, Socket &o_socket1, Socket &o_socket2)] *)
Definition Pair (type : ESocketType) (o_socket1 o_socket2 : ref) : M W Z :=
  let fds := (- EBADFD, - EBADFD) in
  let* socket1 := load o_socket1 in
  let* socket2 := load o_socket2 in
  if IsOpen socket1 || IsOpen socket2 then ret (- EBUSY)
  else
    let* r := sys (sys_socketpair int_of_domain (int_of_ESocketType type) 0 fds) in
    let sockErr := k_ret r in
    let fds := k_sv r in
    if negb (sockErr =? 0) then
      let* e := get_errno in ret (- e)
    else
      store_descriptor o_socket1 (fst fds) ;;
      store_descriptor o_socket2 (snd fds) ;;
      ret 0.
End Socket.

(** ** Clients: sequences of calls

    A client of the class is a sequence of calls of its member functions on
    socket objects.  [perform] runs one call and keeps its integer result
    (0 for the two [void] functions, the address handed back by the
    functions that take an [Address<D> &] being dropped); [perform_all]
    runs a sequence in order. *)
Inductive request : Type :=
| DoOpen (this : ref) (type : ESocketType)
| DoBind (this : ref) (localAddress : Address)
| DoListen (this : ref) (backlog : Z)
| DoConnect (this : ref) (remoteAddress : Address)
| DoAccept (this o_client : ref)
| DoAcceptAddress (this o_client : ref) (o_clientAddress : Address)
| DoSend (this : ref) (buf len : Z) (fl : flags)
| DoSendTo (this : ref) (buf len : Z) (destination : Address) (fl : flags)
| DoReceive (this : ref) (buf len : Z) (fl : flags)
| DoReceiveFrom (this : ref) (buf len : Z) (o_senderAddress : Address) (fl : flags)
| DoPair (type : ESocketType) (o_socket1 o_socket2 : ref)
| DoShutdown (this : ref)
| DoDestroy (this : ref).

(** The calls that give a descriptor up. *)
Definition releases (q : request) : bool :=
  match q with
  | DoShutdown _ | DoDestroy _ => true
  | _ => false
  end.

(** The objects a call may assign a descriptor to: the socket it opens,
    fills or releases.  The socket a call only reads its descriptor from
    (the listening socket of [Accept], the socket of a transfer) is not
    among them. *)
Definition assigned (q : request) : list ref :=
  match q with
  | DoOpen this _ => [this]
  | DoAccept _ o_client | DoAcceptAddress _ o_client _ => [o_client]
  | DoPair _ o_socket1 o_socket2 => [o_socket1; o_socket2]
  | DoShutdown this | DoDestroy this => [this]
  | _ => []
  end.

Section Clients.
Context {W : Type} `{Kernel W}.
Context {D : ESocketDomain} `{AddressOps D}.

Definition perform (q : request) : M W Z :=
  match q with
  | DoOpen this type => Open this type
  | DoBind this a => Bind this a
  | DoListen this backlog => Listen this backlog
  | DoConnect this a => Connect this a
  | DoAccept this o_client => Accept this o_client
  | DoAcceptAddress this o_client a =>
      let* ra := Accept_address this o_client a in ret (fst ra)
  | DoSend this buf len fl => Send this buf len fl
  | DoSendTo this buf len dest fl => Send_to this buf len dest fl
  | DoReceive this buf len fl => Receive this buf len fl
  | DoReceiveFrom this buf len a fl =>
      let* ra := Receive_from this buf len a fl in ret (fst ra)
  | DoPair type o_socket1 o_socket2 => Pair type o_socket1 o_socket2
  | DoShutdown this => Shutdown this ;; ret 0
  | DoDestroy this => Socket_destructor this ;; ret 0
  end.

Fixpoint perform_all (qs : list request) : M W (list Z) :=
  match qs with
  | [] => ret []
  | q :: qs' =>
      let* x := perform q in
      let* xs := perform_all qs' in
      ret (x :: xs)
  end.
End Clients.

(** ** Fixtures: a kernel that plays back a script, and a local-IPC domain *)

(** The answer of a call that fails, or succeeds, without writing through
    any pointer it was given. *)
Definition untouched (c : syscall) (retval : Z) : reply :=
  match c with
  | sys_accept _ a n | sys_recvfrom _ _ _ _ a n => mkReply retval a n (0, 0)
  | sys_socketpair _ _ _ sv => mkReply retval [] 0 sv
  | _ => mkReply retval [] 0 (0, 0)
  end.

(** A scripted world: the answers still to be given, each with the value
    [errno] has once it is given, and the current [errno].  Past the end of
    the script every call fails with [EBADF]. *)
Record Script : Type := mkScript {
  pending : list (reply * Z);
  script_errno : Z
}.

Definition script_step (w : Script) (c : syscall) : reply * Script :=
  match pending w with
  | [] => (untouched c (-1), mkScript [] EBADF)
  | (r, e) :: rest => (r, mkScript rest e)
  end.

#[global] Instance script_kernel : Kernel Script := {
  syscall_step := script_step;
  errno := script_errno
}.

(** Modelled from the spec: an instance for [Address<ESocketDomain::Unix>];
    [Address.h] is not among the sources.  The capacity is the size of
    [sockaddr_un], and "a local-IPC address must have a non-empty path",
    that is, a length beyond the two bytes of the family field. *)
#[global] Instance unix_address : AddressOps Unix := {
  int_of_domain := AF_UNIX;
  s_MaxSize := 110;
  IsValid := fun a => 2 <? a_length a;
  Address_default := mkAddress (repeat x00 110) 2
}.

(** Every socket object closed, as the constructor of [File] leaves it. *)
Definition all_closed : ref -> File := fun _ => mkFile (- EBADFD).

Definition start (objects : ref -> File) (answers : list (reply * Z)) : State Script :=
  mkState objects (mkScript answers 0) [].

(** The number of [shutdown] calls in a trace. *)
Fixpoint shutdown_calls (t : list syscall) : nat :=
  match t with
  | [] => O
  | sys_shutdown _ _ :: t' => S (shutdown_calls t')
  | _ :: t' => shutdown_calls t'
  end.

(** ** Unfolding the monad *)
Ltac run :=
  unfold result, final, answer, after,
    Socket_destructor, Shutdown, Open, Bind, Listen, Connect,
    Accept, Accept_address, Send_membuf, Send_membuf_to, Receive_membuf,
    Receive_membuf_from, Send, Send_to, Receive, Receive_from, Pair,
    Close, bind, ret, load, sys, get_errno, store_descriptor;
  cbn [fst snd heap world trace].

Ltac step :=
  match goal with
  | |- context [syscall_step ?w ?c] =>
      let r := fresh "r" in let w' := fresh "w'" in
      destruct (syscall_step w c) as [r w'] eqn:?;
      cbn [fst snd heap world trace] in *
  end.

(** ** The functions on small inputs *)

(** Scenario 3 of the specification: the second [Open] is refused and the
    first descriptor stays. *)
Example Open_twice :
  let prog := let* first := Open (D := Unix) 0%nat Stream in
              let* second := Open (D := Unix) 0%nat Stream in
              ret (first, second) in
  let st := start all_closed [(mkReply 3 [] 0 (0, 0), 0)] in
  result prog st = (0, - EBUSY)
  /\ heap (final prog st) 0%nat = mkFile 3
  /\ trace (final prog st) = [sys_socket AF_UNIX SOCK_STREAM 0].
Proof. repeat split. Qed.

(** Scenario 4: destroying an open socket shuts it down and closes it. *)
Example destroy_open_socket :
  let st := start (<[0%nat := mkFile 3]> all_closed) [] in
  trace (final (Socket_destructor 0%nat) st) = [sys_shutdown 3 SHUT_RDWR; sys_close 3]
  /\ heap (final (Socket_destructor 0%nat) st) 0%nat = mkFile (- EBADFD).
Proof. repeat split. Qed.

(** [Pair] handed one object twice: the object keeps the second descriptor. *)
Example Pair_one_object_twice :
  let st := start all_closed [(mkReply 0 [] 0 (5, 6), 0)] in
  result (Pair (D := Unix) SeqPacket 0%nat 0%nat) st = 0
  /\ heap (final (Pair (D := Unix) SeqPacket 0%nat 0%nat) st) 0%nat = mkFile 6.
Proof. repeat split. Qed.

(** After [Shutdown] a [Send] reaches the kernel with the sentinel as
    descriptor and comes back with the kernel's error. *)
Example Send_after_Shutdown :
  let prog := Shutdown 0%nat ;; Send 0%nat 4096 4 0 in
  let st := start (<[0%nat := mkFile 3]> all_closed)
                  [(mkReply 0 [] 0 (0, 0), 0); (mkReply 0 [] 0 (0, 0), 0)] in
  result prog st = - EBADF
  /\ trace (final prog st)
     = [sys_shutdown 3 SHUT_RDWR; sys_close 3; sys_send (- EBADFD) 4096 4 0].
Proof. repeat split. Qed.

(** ** Local guards ([-EBUSY], [-EINVAL]) *)
Section Guards.
Context {W : Type} `{Kernel W}.
Context {D : ESocketDomain} `{AddressOps D}.

(** C1. Whatever the domain, [Open] on a socket that is already open
    returns [-EBUSY] and leaves the whole state as it was: the descriptor
    of the socket is the one it had, and no system call is issued, so no
    new descriptor is acquired. *)
Theorem Open_already_open (this : ref) (type : ESocketType) (st : State W) :
  IsOpen (heap st this) = true ->
  result (Open this type) st = - EBUSY
  /\ final (Open this type) st = st.
Proof.
  intros Hopen. run. rewrite Hopen. split; reflexivity.
Qed.

(** C2. Whatever the domain, [Accept] into a client socket that is open
    returns [-EBUSY] in both forms, issues no system call and changes no
    socket object; the two-argument form hands the address back as it
    received it. *)
Theorem Accept_into_open (this o_client : ref) (a : Address) (st : State W) :
  IsOpen (heap st o_client) = true ->
  result (Accept_address this o_client a) st = (- EBUSY, a)
  /\ final (Accept_address this o_client a) st = st
  /\ result (Accept this o_client) st = - EBUSY
  /\ final (Accept this o_client) st = st.
Proof.
  intros Hopen. run. rewrite Hopen. cbn. repeat split; reflexivity.
Qed.

(** C3. Each of the four [Send] overloads and of the four [Receive]
    overloads, called with a null buffer, returns [-EINVAL] and leaves
    the state as it was (no system call, no object changed), for every
    state, length and flag word; a sender address is handed back as it
    was received. *)
Theorem null_buffer_invalid (this : ref) (len : Z) (fl : flags)
    (a : Address) (st : State W) :
  let mem := mkMembuf nullptr len in
  (Send this nullptr len fl st = (- EINVAL, st)
   /\ Send_to this nullptr len a fl st = (- EINVAL, st)
   /\ Send_membuf this mem fl st = (- EINVAL, st)
   /\ Send_membuf_to this mem a fl st = (- EINVAL, st))
  /\ (Receive this nullptr len fl st = (- EINVAL, st)
      /\ Receive_from this nullptr len a fl st = ((- EINVAL, a), st)
      /\ Receive_membuf this mem fl st = (- EINVAL, st)
      /\ Receive_membuf_from this mem a fl st = ((- EINVAL, a), st)).
Proof.
  cbv zeta. run. cbn. repeat split; reflexivity.
Qed.
End Guards.

(** ** Calls that reach the kernel *)
Section Delegation.
Context {W : Type} `{Kernel W}.
Context {D : ESocketDomain} `{AddressOps D}.

Lemma SetLength_bounded (a : Address) (n : Z) :
  GetLength (SetLength a n) = Z.min n s_MaxSize
  /\ GetLength (SetLength a n) <= s_MaxSize.
Proof.
  unfold GetLength, SetLength. cbn. split; [reflexivity | lia].
Qed.

(** C4. When the kernel's [accept] (into a closed client) or [recvfrom]
    (into a non-null buffer) succeeds, the length the address has
    afterwards is the value the kernel left in [addressLength], clamped
    to [s_MaxSize], hence at most [s_MaxSize]. *)
Theorem recorded_length_clamped (this o_client : ref) (o_buffer len : Z)
    (fl : flags) (a : Address) (st : State W) :
  let fd := m_descriptor (heap st this) in
  let acc := sys_accept fd (GetBase a) s_MaxSize in
  let rcv := sys_recvfrom fd o_buffer len fl (GetBase a) s_MaxSize in
  (IsOpen (heap st o_client) = false ->
   0 <= k_ret (answer st acc) ->
   let a' := snd (result (Accept_address this o_client a) st) in
   fst (result (Accept_address this o_client a) st) = 0
   /\ GetLength a' = Z.min (k_addrlen (answer st acc)) s_MaxSize
   /\ GetLength a' <= s_MaxSize)
  /\ (o_buffer <> nullptr ->
      0 <= k_ret (answer st rcv) ->
      let a' := snd (result (Receive_from this o_buffer len a fl) st) in
      fst (result (Receive_from this o_buffer len a fl) st) = k_ret (answer st rcv)
      /\ GetLength a' = Z.min (k_addrlen (answer st rcv)) s_MaxSize
      /\ GetLength a' <= s_MaxSize).
Proof.
  cbv zeta. split.
  - intros Hclosed Hok. unfold answer in Hok. run. rewrite Hclosed. step.
    destruct (k_ret r <? 0) eqn:Hneg; [apply Z.ltb_lt in Hneg; lia |].
    cbn [fst snd]. split; [reflexivity | apply SetLength_bounded].
  - intros Hbuf Hok. unfold answer in Hok. run.
    destruct (o_buffer =? nullptr) eqn:Hnull; [apply Z.eqb_eq in Hnull; contradiction |].
    step.
    destruct (k_ret r <? 0) eqn:Hneg; [apply Z.ltb_lt in Hneg; lia |].
    cbn [fst snd]. split; [reflexivity | apply SetLength_bounded].
Qed.

(** C6. [Bind] with an address that is not valid returns [-EINVAL] and
    leaves the state as it was, so [bind] is not called.  With a valid
    address it issues exactly one call, [bind] on the stored descriptor
    with the base and length of the address, changes no socket object,
    and returns 0 when the kernel returned 0 and minus [errno]
    otherwise. *)
Theorem Bind_checks_then_delegates (this : ref) (a : Address) (st : State W) :
  let c := sys_bind (m_descriptor (heap st this)) (GetBase a) (GetLength a) in
  (IsValid a = false ->
   result (Bind this a) st = - EINVAL /\ final (Bind this a) st = st)
  /\ (IsValid a = true ->
      final (Bind this a) st = mkState (heap st) (after st c) (trace st ++ [c])
      /\ result (Bind this a) st =
           if k_ret (answer st c) =? 0 then 0 else - errno (after st c)).
Proof.
  cbv zeta. split; intros Hvalid; run; rewrite Hvalid; cbn.
  - split; reflexivity.
  - step. destruct (k_ret r =? 0); cbn; split; reflexivity.
Qed.

(** C10. [Listen] and [Connect] test nothing themselves: in every state,
    open or closed, each issues exactly one call ([listen], [connect]) on
    the stored descriptor, changes no socket object, and returns what the
    kernel's answer dictates: 0 when the kernel returned 0, minus [errno]
    when it failed ([listen] below zero, [connect] other than zero; a
    positive return of [listen], which the kernel never gives, would be
    handed on).  No path returns a code of this layer's own. *)
Theorem Listen_Connect_delegate (this : ref) (backlog : Z) (a : Address)
    (st : State W) :
  let fd := m_descriptor (heap st this) in
  let l := sys_listen fd backlog in
  let c := sys_connect fd (GetBase a) (GetLength a) in
  (final (Listen this backlog) st = mkState (heap st) (after st l) (trace st ++ [l])
   /\ result (Listen this backlog) st =
        if k_ret (answer st l) <? 0 then - errno (after st l)
        else if k_ret (answer st l) =? 0 then 0
        else k_ret (answer st l))
  /\ (final (Connect this a) st = mkState (heap st) (after st c) (trace st ++ [c])
      /\ result (Connect this a) st =
           if k_ret (answer st c) =? 0 then 0 else - errno (after st c)).
Proof.
  cbv zeta. split; run; step.
  - destruct (k_ret r <? 0); cbn; [split; reflexivity |].
    destruct (k_ret r =? 0) eqn:Hzero; [apply Z.eqb_eq in Hzero |];
      split; congruence.
  - destruct (k_ret r =? 0); cbn; split; reflexivity.
Qed.
End Delegation.

(** ** Release of the descriptor, and [Pair] *)
Section Lifecycle.
Context {W : Type} `{Kernel W}.
Context {D : ESocketDomain} `{AddressOps D}.

Lemma shutdown_calls_app (t t' : list syscall) :
  shutdown_calls (t ++ t') = (shutdown_calls t + shutdown_calls t')%nat.
Proof.
  induction t as [| c t IH]; [reflexivity |].
  destruct c; cbn; rewrite IH; reflexivity.
Qed.

Lemma IsOpen_sentinel : IsOpen (mkFile (- EBADFD)) = false.
Proof. reflexivity. Qed.

(** C7. [Shutdown] on an open socket issues [shutdown(fd, SHUT_RDWR)] and
    then [close(fd)], and stores the closed sentinel in that socket only;
    in every state the socket is closed afterwards.  On a closed socket
    no object changes and no [close] is issued (the [shutdown] call
    itself still goes out, on the stale descriptor), so a second
    [Shutdown] changes no object.  The destructor does nothing at all on
    a closed socket and does what one [Shutdown] does on an open one: the
    number of [shutdown] calls it adds is 1 or 0 accordingly, and the
    socket is closed when it returns. *)
Theorem Shutdown_releases (this : ref) (st : State W) :
  let fd := m_descriptor (heap st this) in
  let down := sys_shutdown fd SHUT_RDWR in
  let st1 := final (Shutdown this) st in
  let st2 := final (Socket_destructor this) st in
  IsOpen (heap st1 this) = false
  /\ (IsOpen (heap st this) = true ->
      trace st1 = trace st ++ [down; sys_close fd]
      /\ heap st1 = <[this := mkFile (- EBADFD)]> (heap st))
  /\ (IsOpen (heap st this) = false ->
      trace st1 = trace st ++ [down] /\ heap st1 = heap st)
  /\ heap (final (Shutdown this) st1) = heap st1
  /\ IsOpen (heap st2 this) = false
  /\ (IsOpen (heap st this) = true -> st2 = st1)
  /\ (IsOpen (heap st this) = false -> st2 = st)
  /\ shutdown_calls (trace st2) =
       (shutdown_calls (trace st) + if IsOpen (heap st this) then 1 else 0)%nat.
Proof.
  cbv zeta.
  assert (Hclosed : IsOpen (heap (final (Shutdown this) st) this) = false).
  { run. step. destruct (IsOpen (heap st this)) eqn:Hopen.
    - step. rewrite fn_lookup_insert. apply IsOpen_sentinel.
    - cbn. exact Hopen. }
  assert (Hidem : forall s, IsOpen (heap s this) = false ->
                            heap (final (Shutdown this) s) = heap s).
  { intros s Hs. run. step. rewrite Hs. reflexivity. }
  split; [exact Hclosed |].
  split; [| split; [| split; [| split; [| split; [| split]]]]].
  - intros Hopen. run. step. rewrite Hopen. step. rewrite <- app_assoc.
    split; reflexivity.
  - intros Hopen. run. step. rewrite Hopen. split; reflexivity.
  - apply Hidem, Hclosed.
  - destruct (IsOpen (heap st this)) eqn:Hopen.
    + replace (final (Socket_destructor this) st) with (final (Shutdown this) st);
        [exact Hclosed |].
      unfold final, Socket_destructor, bind, load. cbn. rewrite Hopen. reflexivity.
    + unfold final, Socket_destructor, bind, load, ret. cbn. rewrite Hopen. exact Hopen.
  - intros Hopen. unfold final, Socket_destructor, bind, load. cbn.
    rewrite Hopen. reflexivity.
  - intros Hopen. unfold final, Socket_destructor, bind, load, ret. cbn.
    rewrite Hopen. reflexivity.
  - clear Hclosed Hidem. run. destruct (IsOpen (heap st this)) eqn:Hopen.
    + step. rewrite Hopen. step. rewrite <- app_assoc, shutdown_calls_app.
      reflexivity.
    + cbn. rewrite Nat.add_0_r. reflexivity.
Qed.

(** C8. [Pair] returns [-EBUSY], touching nothing, as soon as one of the
    two sockets is open.  With both closed and [socketpair] returning 0
    it returns 0 after that single call, on [(int)D], the type and
    protocol 0; the second socket then holds the second descriptor the
    kernel wrote, the first socket the first one (when the two references
    denote distinct objects; one object passed twice keeps the second
    descriptor), and no other object changes. *)
Theorem Pair_busy_or_assigns (type : ESocketType) (o_socket1 o_socket2 : ref)
    (st : State W) :
  let c := sys_socketpair int_of_domain (int_of_ESocketType type) 0
                          (- EBADFD, - EBADFD) in
  let st' := final (Pair type o_socket1 o_socket2) st in
  (IsOpen (heap st o_socket1) = true \/ IsOpen (heap st o_socket2) = true ->
   result (Pair type o_socket1 o_socket2) st = - EBUSY /\ st' = st)
  /\ (IsOpen (heap st o_socket1) = false ->
      IsOpen (heap st o_socket2) = false ->
      k_ret (answer st c) = 0 ->
      result (Pair type o_socket1 o_socket2) st = 0
      /\ trace st' = trace st ++ [c]
      /\ world st' = after st c
      /\ m_descriptor (heap st' o_socket2) = snd (k_sv (answer st c))
      /\ (o_socket1 <> o_socket2 ->
          m_descriptor (heap st' o_socket1) = fst (k_sv (answer st c)))
      /\ (m_descriptor (heap st' o_socket1) = fst (k_sv (answer st c))
          \/ m_descriptor (heap st' o_socket1) = snd (k_sv (answer st c)))
      /\ (forall r, r <> o_socket1 -> r <> o_socket2 -> heap st' r = heap st r)).
Proof.
  cbv zeta. split.
  - intros Hopen. run.
    replace (IsOpen (heap st o_socket1) || IsOpen (heap st o_socket2)) with true.
    + split; reflexivity.
    + symmetry. apply orb_true_iff. exact Hopen.
  - intros H1 H2 Hok. unfold answer in Hok. run. rewrite H1, H2. cbn [orb]. step.
    rewrite Hok. cbn.
    repeat split.
    + rewrite fn_lookup_insert. reflexivity.
    + intros Hne. rewrite fn_lookup_insert_ne by congruence.
      rewrite fn_lookup_insert. reflexivity.
    + destruct (decide (o_socket1 = o_socket2)) as [-> | Hne].
      * right. rewrite fn_lookup_insert. reflexivity.
      * left. rewrite fn_lookup_insert_ne by congruence.
        rewrite fn_lookup_insert. reflexivity.
    + intros r0 Hr1 Hr2. rewrite !fn_lookup_insert_ne by congruence. reflexivity.
Qed.

(** C9. With both sockets closed, when [socketpair] does not return 0,
    [Pair] returns minus [errno] and changes no socket object: both
    sockets are closed, with the descriptors they had. *)
Theorem Pair_failure_atomic (type : ESocketType) (o_socket1 o_socket2 : ref)
    (st : State W) :
  let c := sys_socketpair int_of_domain (int_of_ESocketType type) 0
                          (- EBADFD, - EBADFD) in
  let st' := final (Pair type o_socket1 o_socket2) st in
  IsOpen (heap st o_socket1) = false ->
  IsOpen (heap st o_socket2) = false ->
  k_ret (answer st c) <> 0 ->
  result (Pair type o_socket1 o_socket2) st = - errno (after st c)
  /\ heap st' = heap st
  /\ IsOpen (heap st' o_socket1) = false
  /\ IsOpen (heap st' o_socket2) = false
  /\ trace st' = trace st ++ [c].
Proof.
  cbv zeta. intros H1 H2 Hfail. unfold answer in Hfail. run. rewrite H1, H2. cbn [orb]. step.
  destruct (k_ret r =? 0) eqn:Hzero; [apply Z.eqb_eq in Hzero; contradiction |].
  cbn. rewrite H1, H2. repeat split.
Qed.
End Lifecycle.

(** ** The flag enumerations *)
Section Flags.
Context {W : Type} `{Kernel W}.
Context {D : ESocketDomain} `{AddressOps D}.

(** Every enumerator of [ESendFlags] has the value of the constant it is
    named after, [NonBlock] that of [MSG_DONTWAIT]. *)
Lemma ESendFlags_values : enum_values ESendFlags_decl = Some ESendFlags_os.
Proof. reflexivity. Qed.

(** In [EReceiveFlags] only [None], [DoNotWait] and [NonBlock] have an
    initializer; the five enumerators between them count on from
    [MSG_DONTWAIT]. *)
Lemma EReceiveFlags_values :
  enum_values EReceiveFlags_decl =
  Some [ ("None", 0); ("DoNotWait", 64); ("MSG_ERRQUEUE", 65); ("MSG_OOB", 66);
         ("MSG_PEEK", 67); ("MSG_TRUNC", 68); ("MSG_WAITALL", 69);
         ("NonBlock", 64) ].
Proof. reflexivity. Qed.

(** The flag word of [Send] and [Receive] is the one handed to [send] and
    [recv], and the bitwise or of two flags is the or of their values. *)
Lemma flags_pass_through (this : ref) (buf len : Z) (f g : flags) (st : State W) :
  buf <> nullptr ->
  let fd := m_descriptor (heap st this) in
  trace (final (Send this buf len (flags_or f g)) st)
    = trace st ++ [sys_send fd buf len (Z.lor f g)]
  /\ trace (final (Receive this buf len (flags_or f g)) st)
     = trace st ++ [sys_recv fd buf len (Z.lor f g)].
Proof.
  intros Hbuf. cbv zeta. run.
  destruct (buf =? nullptr) eqn:Hnull; [apply Z.eqb_eq in Hnull; contradiction |].
  split; step; destruct (k_ret r <? 0); reflexivity.
Qed.
End Flags.

(** C5. The claim fails on the receive set: the enumerator
    [EReceiveFlags::MSG_PEEK] has the value 67, not that of the platform's
    [MSG_PEEK] (2), and [Receive] with that flag on the open descriptor 3
    hands [recv] the flag word 67, which the kernel reads as
    [MSG_DONTWAIT | MSG_PEEK | MSG_OOB].  The same holds of the other four
    enumerators declared without an initializer. *)
Theorem EReceiveFlags_MSG_PEEK_misnumbered :
  let st := start (<[0%nat := mkFile 3]> all_closed) [(mkReply 0 [] 0 (0, 0), 0)] in
  enumerator EReceiveFlags_decl "MSG_PEEK" = Some 67
  /\ lookup_enumerator "MSG_PEEK" EReceiveFlags_os = Some 2
  /\ trace (final (Receive 0%nat 4096 16 67) st) = [sys_recv 3 4096 16 67]
  /\ 67 = Z.lor MSG_DONTWAIT (Z.lor MSG_PEEK MSG_OOB)
  /\ enumerator EReceiveFlags_decl "MSG_ERRQUEUE" <> Some MSG_ERRQUEUE
  /\ enumerator EReceiveFlags_decl "MSG_OOB" <> Some MSG_OOB
  /\ enumerator EReceiveFlags_decl "MSG_PEEK" <> Some MSG_PEEK
  /\ enumerator EReceiveFlags_decl "MSG_TRUNC" <> Some MSG_TRUNC
  /\ enumerator EReceiveFlags_decl "MSG_WAITALL" <> Some MSG_WAITALL.
Proof.
  cbv zeta. repeat split; try reflexivity; vm_compute; discriminate.
Qed.

(** ** The theorems at concrete inputs *)

Lemma Open_already_open_witness :
  let st := start (<[0%nat := mkFile 3]> all_closed) [] in
  IsOpen (heap st 0%nat) = true
  /\ result (Open (D := Unix) 0%nat Stream) st = - EBUSY
  /\ final (Open (D := Unix) 0%nat Stream) st = st.
Proof.
  cbv zeta. split; [reflexivity |].
  apply (Open_already_open (D := Unix) 0%nat Stream). reflexivity.
Defined.

Lemma Accept_into_open_witness :
  let st := start (<[1%nat := mkFile 4]> (<[0%nat := mkFile 3]> all_closed)) [] in
  let a := mkAddress [x01; x00] 2 in
  IsOpen (heap st 1%nat) = true
  /\ result (Accept_address (D := Unix) 0%nat 1%nat a) st = (- EBUSY, a)
  /\ final (Accept_address (D := Unix) 0%nat 1%nat a) st = st
  /\ result (Accept (D := Unix) 0%nat 1%nat) st = - EBUSY
  /\ final (Accept (D := Unix) 0%nat 1%nat) st = st.
Proof.
  cbv zeta. split; [reflexivity |].
  apply (Accept_into_open (D := Unix) 0%nat 1%nat). reflexivity.
Defined.

Lemma recorded_length_clamped_witness :
  let st := start (<[0%nat := mkFile 3]> all_closed)
                  [(mkReply 5 (repeat x41 110) 111 (0, 0), 0)] in
  let a := mkAddress (repeat x00 110) 0 in
  (fst (result (Accept_address (D := Unix) 0%nat 1%nat a) st) = 0
   /\ GetLength (snd (result (Accept_address (D := Unix) 0%nat 1%nat a) st)) = 110)
  /\ (fst (result (Receive_from (D := Unix) 0%nat 4096 16 a 0) st) = 5
      /\ GetLength (snd (result (Receive_from (D := Unix) 0%nat 4096 16 a 0) st)) = 110).
Proof.
  cbv zeta.
  pose proof (recorded_length_clamped (D := Unix) 0%nat 1%nat 4096 16 0
                (mkAddress (repeat x00 110) 0)
                (start (<[0%nat := mkFile 3]> all_closed)
                       [(mkReply 5 (repeat x41 110) 111 (0, 0), 0)])) as [Hacc Hrcv].
  split.
  - destruct Hacc as (Hr & Hlen & _); [reflexivity | vm_compute; discriminate |].
    split; [exact Hr | exact Hlen].
  - destruct Hrcv as (Hr & Hlen & _);
      [vm_compute; discriminate | vm_compute; discriminate |].
    split; [exact Hr | exact Hlen].
Defined.

Lemma Bind_checks_then_delegates_witness :
  let st := start (<[0%nat := mkFile 3]> all_closed)
                  [(mkReply (-1) [] 0 (0, 0), 98)] in
  let bad := mkAddress (repeat x00 110) 2 in
  let good := mkAddress (repeat x2f 110) 7 in
  (result (Bind (D := Unix) 0%nat bad) st = - EINVAL
   /\ final (Bind (D := Unix) 0%nat bad) st = st)
  /\ (trace (final (Bind (D := Unix) 0%nat good) st) = [sys_bind 3 (repeat x2f 110) 7]
      /\ result (Bind (D := Unix) 0%nat good) st = - 98).
Proof.
  cbv zeta. split.
  - apply (Bind_checks_then_delegates (D := Unix)). reflexivity.
  - destruct (Bind_checks_then_delegates (D := Unix) 0%nat
                (mkAddress (repeat x2f 110) 7)
                (start (<[0%nat := mkFile 3]> all_closed)
                       [(mkReply (-1) [] 0 (0, 0), 98)])) as [_ Hgood].
    destruct Hgood as [Hfinal Hresult]; [reflexivity |].
    split; [rewrite Hfinal; reflexivity | exact Hresult].
Defined.

Lemma Shutdown_releases_witness :
  let opened := start (<[0%nat := mkFile 3]> all_closed) [] in
  let closed := start all_closed [] in
  (trace (final (Shutdown 0%nat) opened) = [sys_shutdown 3 SHUT_RDWR; sys_close 3]
   /\ final (Socket_destructor 0%nat) opened = final (Shutdown 0%nat) opened)
  /\ (trace (final (Shutdown 0%nat) closed) = [sys_shutdown (- EBADFD) SHUT_RDWR]
      /\ heap (final (Shutdown 0%nat) closed) = heap closed
      /\ final (Socket_destructor 0%nat) closed = closed).
Proof.
  cbv zeta. split.
  - destruct (Shutdown_releases 0%nat (start (<[0%nat := mkFile 3]> all_closed) []))
      as (_ & Hopen & _ & _ & _ & Hdtor & _).
    destruct Hopen as [Htrace _]; [reflexivity |].
    split; [exact Htrace | apply Hdtor; reflexivity].
  - destruct (Shutdown_releases 0%nat (start all_closed []))
      as (_ & _ & Hclosed & _ & _ & _ & Hdtor & _).
    destruct Hclosed as [Htrace Hheap]; [reflexivity |].
    split; [exact Htrace | split; [exact Hheap | apply Hdtor; reflexivity]].
Defined.

Lemma Pair_busy_or_assigns_witness :
  let busy := start (<[1%nat := mkFile 4]> all_closed) [] in
  let free := start all_closed [(mkReply 0 [] 0 (5, 6), 0)] in
  (result (Pair (D := Unix) SeqPacket 0%nat 1%nat) busy = - EBUSY
   /\ final (Pair (D := Unix) SeqPacket 0%nat 1%nat) busy = busy)
  /\ (result (Pair (D := Unix) SeqPacket 0%nat 1%nat) free = 0
      /\ m_descriptor (heap (final (Pair (D := Unix) SeqPacket 0%nat 1%nat) free) 0%nat) = 5
      /\ m_descriptor (heap (final (Pair (D := Unix) SeqPacket 0%nat 1%nat) free) 1%nat) = 6).
Proof.
  cbv zeta. split.
  - apply (Pair_busy_or_assigns (D := Unix)). right. reflexivity.
  - destruct (Pair_busy_or_assigns (D := Unix) SeqPacket 0%nat 1%nat
                (start all_closed [(mkReply 0 [] 0 (5, 6), 0)])) as [_ Hfree].
    destruct Hfree as (Hr & _ & _ & H2 & H1 & _ & _);
      [reflexivity | reflexivity | reflexivity |].
    split; [exact Hr | split; [apply H1; discriminate | exact H2]].
Defined.

Lemma Pair_failure_atomic_witness :
  let st := start all_closed [(mkReply (-1) [] 0 (- EBADFD, - EBADFD), EMFILE)] in
  result (Pair (D := Unix) Stream 0%nat 1%nat) st = - EMFILE
  /\ heap (final (Pair (D := Unix) Stream 0%nat 1%nat) st) = heap st
  /\ IsOpen (heap (final (Pair (D := Unix) Stream 0%nat 1%nat) st) 0%nat) = false
  /\ IsOpen (heap (final (Pair (D := Unix) Stream 0%nat 1%nat) st) 1%nat) = false
  /\ trace (final (Pair (D := Unix) Stream 0%nat 1%nat) st)
     = [sys_socketpair AF_UNIX SOCK_STREAM 0 (- EBADFD, - EBADFD)].
Proof.
  cbv zeta.
  pose proof (Pair_failure_atomic (D := Unix) Stream 0%nat 1%nat
                (start all_closed [(mkReply (-1) [] 0 (- EBADFD, - EBADFD), EMFILE)]))
    as Hfail.
  cbv zeta in Hfail.
  exact (Hfail eq_refl eq_refl ltac:(vm_compute; discriminate)).
Defined.

(** ** The paths through [Open] and [Accept] *)
Section Acquisition.
Context {W : Type} `{Kernel W}.
Context {D : ESocketDomain} `{AddressOps D}.

Lemma IsOpen_nonneg (d : Z) : 0 <= d -> IsOpen (mkFile d) = true.
Proof. intros Hd. unfold IsOpen. cbn. apply Z.leb_le. exact Hd. Qed.

Lemma ltb_nonneg (z : Z) : 0 <= z -> (z <? 0) = false.
Proof. intros Hz. apply Z.ltb_ge. exact Hz. Qed.

Lemma ltb_neg (z : Z) : z < 0 -> (z <? 0) = true.
Proof. intros Hz. apply Z.ltb_lt. exact Hz. Qed.

(** [Open] on a closed socket whose [socket] call yields a descriptor:
    one call, on [(int)D], the type and protocol 0; the result is 0, the
    socket holds the descriptor and is open, no other object changes. *)
Theorem Open_acquires (this : ref) (type : ESocketType) (st : State W) :
  let c := sys_socket int_of_domain (int_of_ESocketType type) 0 in
  let d := k_ret (answer st c) in
  IsOpen (heap st this) = false ->
  0 <= d ->
  Open this type st
    = (0, mkState (<[this := mkFile d]> (heap st)) (after st c) (trace st ++ [c]))
  /\ IsOpen (heap (final (Open this type) st) this) = true
  /\ (forall r, r <> this -> heap (final (Open this type) st) r = heap st r).
Proof.
  cbv zeta. intros Hclosed Hd. unfold answer, after in *. run. rewrite Hclosed.
  step. rewrite (ltb_nonneg _ Hd). cbn. repeat split.
  - rewrite fn_lookup_insert. apply IsOpen_nonneg, Hd.
  - intros r0 Hr. apply fn_lookup_insert_ne. congruence.
Qed.

(** [Open] on a closed socket whose [socket] call fails returns minus
    [errno] after that one call and leaves every socket object as it was:
    the socket is still closed and may be opened again. *)
Theorem Open_failure_keeps_closed (this : ref) (type : ESocketType) (st : State W) :
  let c := sys_socket int_of_domain (int_of_ESocketType type) 0 in
  IsOpen (heap st this) = false ->
  k_ret (answer st c) < 0 ->
  Open this type st
    = (- errno (after st c), mkState (heap st) (after st c) (trace st ++ [c]))
  /\ IsOpen (heap (final (Open this type) st) this) = false.
Proof.
  cbv zeta. intros Hclosed Hd. unfold answer, after in *. run. rewrite Hclosed.
  step. rewrite (ltb_neg _ Hd). cbn. split; [reflexivity | exact Hclosed].
Qed.

(** After an [Open] that succeeded, a further [Open] of the same object,
    of whatever type, is refused with [-EBUSY] and reaches the kernel no
    more: the descriptor of the first call stays. *)
Theorem Open_after_Open (this : ref) (type type' : ESocketType) (st : State W) :
  let c := sys_socket int_of_domain (int_of_ESocketType type) 0 in
  let st1 := final (Open this type) st in
  IsOpen (heap st this) = false ->
  0 <= k_ret (answer st c) ->
  Open this type' st1 = (- EBUSY, st1)
  /\ m_descriptor (heap st1 this) = k_ret (answer st c).
Proof.
  cbv zeta. intros Hclosed Hd. unfold answer in *. run. rewrite Hclosed.
  step. rewrite (ltb_nonneg _ Hd). cbn.
  rewrite fn_lookup_insert, (IsOpen_nonneg _ Hd). split; reflexivity.
Qed.

(** After [Shutdown], in whatever state it was called, [Open] is not
    refused: it issues its [socket] call and answers by the kernel's
    return, so a socket object can be used again. *)
Theorem Open_after_Shutdown (this : ref) (type : ESocketType) (st : State W) :
  let st1 := final (Shutdown this) st in
  let c := sys_socket int_of_domain (int_of_ESocketType type) 0 in
  trace (final (Open this type) st1) = trace st1 ++ [c]
  /\ result (Open this type) st1
     = if k_ret (answer st1 c) <? 0 then - errno (after st1 c) else 0.
Proof.
  cbv zeta.
  assert (Hclosed : IsOpen (heap (final (Shutdown this) st) this) = false).
  { run. step. destruct (IsOpen (heap st this)) eqn:Hopen.
    - step. rewrite fn_lookup_insert. reflexivity.
    - cbn. exact Hopen. }
  remember (final (Shutdown this) st) as st1 eqn:Hst1. clear Hst1.
  run. rewrite Hclosed. step.
  destruct (k_ret r <? 0); cbn; split; reflexivity.
Qed.

(** [Accept] into a closed client whose [accept] call yields a descriptor:
    one call, on the descriptor of the listening socket with capacity
    [s_MaxSize]; the result is 0, the client holds the new descriptor and
    is open, the address has the bytes the kernel wrote, and no other
    object changes, the listening socket included. *)
Theorem Accept_adopts (this o_client : ref) (a : Address) (st : State W) :
  let c := sys_accept (m_descriptor (heap st this)) (GetBase a) s_MaxSize in
  let d := k_ret (answer st c) in
  let st' := final (Accept_address this o_client a) st in
  IsOpen (heap st o_client) = false ->
  0 <= d ->
  fst (result (Accept_address this o_client a) st) = 0
  /\ st' = mkState (<[o_client := mkFile d]> (heap st)) (after st c) (trace st ++ [c])
  /\ IsOpen (heap st' o_client) = true
  /\ GetBase (snd (result (Accept_address this o_client a) st)) = k_addr (answer st c)
  /\ (forall r, r <> o_client -> heap st' r = heap st r).
Proof.
  cbv zeta. intros Hclosed Hd. unfold answer, after in *. run. rewrite Hclosed.
  step. rewrite (ltb_nonneg _ Hd). cbn. repeat split.
  - rewrite fn_lookup_insert. apply IsOpen_nonneg, Hd.
  - intros r0 Hr. apply fn_lookup_insert_ne. congruence.
Qed.

(** [Accept] into a closed client whose [accept] call fails returns minus
    [errno] after that one call; no socket object changes, the client stays
    closed, and the length of the address is the one it had (its bytes are
    what the kernel left). *)
Theorem Accept_failure_keeps_client (this o_client : ref) (a : Address)
    (st : State W) :
  let c := sys_accept (m_descriptor (heap st this)) (GetBase a) s_MaxSize in
  IsOpen (heap st o_client) = false ->
  k_ret (answer st c) < 0 ->
  Accept_address this o_client a st
    = ((- errno (after st c), mkAddress (k_addr (answer st c)) (GetLength a)),
       mkState (heap st) (after st c) (trace st ++ [c]))
  /\ IsOpen (heap (final (Accept_address this o_client a) st) o_client) = false.
Proof.
  cbv zeta. intros Hclosed Hd. unfold answer, after in *. run. rewrite Hclosed.
  step. rewrite (ltb_neg _ Hd). cbn. split; [reflexivity | exact Hclosed].
Qed.

(** Once a client socket has accepted a connection, an [Accept] into it
    from any listening socket is refused with [-EBUSY] without reaching the
    kernel: the accepted descriptor is not overwritten. *)
Theorem Accept_after_Accept (this this' o_client : ref) (a a' : Address)
    (st : State W) :
  let c := sys_accept (m_descriptor (heap st this)) (GetBase a) s_MaxSize in
  let st1 := final (Accept_address this o_client a) st in
  IsOpen (heap st o_client) = false ->
  0 <= k_ret (answer st c) ->
  Accept_address this' o_client a' st1 = ((- EBUSY, a'), st1)
  /\ Accept this' o_client st1 = (- EBUSY, st1)
  /\ m_descriptor (heap st1 o_client) = k_ret (answer st c).
Proof.
  cbv zeta. intros Hclosed Hd. unfold answer in *. run. rewrite Hclosed.
  step. rewrite (ltb_nonneg _ Hd). cbn.
  rewrite fn_lookup_insert, (IsOpen_nonneg _ Hd). cbn. repeat split.
Qed.
End Acquisition.

(** ** The paths through [Send] and [Receive] *)
Section Transfer.
Context {W : Type} `{Kernel W}.
Context {D : ESocketDomain} `{AddressOps D}.

Lemma eqb_nullptr (p : Z) : p <> nullptr -> (p =? nullptr) = false.
Proof. intros Hp. apply Z.eqb_neq. exact Hp. Qed.

(** [Send] with a buffer that is not null issues exactly one call: [send],
    or [sendto] when a destination is given, on the stored descriptor with
    the buffer, the length and the flag word as received and, for [sendto],
    the base and length of the destination.  No socket object changes; the
    result is the kernel's count, or minus [errno] when the call returned
    below zero.  The [membuf] overloads do the same with the two fields. *)
Theorem Send_delegates (this : ref) (buf len : Z) (dest : Address) (fl : flags)
    (st : State W) :
  let fd := m_descriptor (heap st this) in
  let c := sys_send fd buf len fl in
  let c' := sys_sendto fd buf len fl (GetBase dest) (GetLength dest) in
  let outcome c := (if k_ret (answer st c) <? 0 then - errno (after st c)
                    else k_ret (answer st c),
                    mkState (heap st) (after st c) (trace st ++ [c])) in
  buf <> nullptr ->
  Send this buf len fl st = outcome c
  /\ Send_to this buf len dest fl st = outcome c'
  /\ Send_membuf this (mkMembuf buf len) fl st = outcome c
  /\ Send_membuf_to this (mkMembuf buf len) dest fl st = outcome c'.
Proof.
  cbv zeta. intros Hbuf. run. cbn [buffer length]. rewrite (eqb_nullptr _ Hbuf).
  repeat split; step; destruct (k_ret r <? 0); reflexivity.
Qed.

(** [Receive] without a sender address, with a buffer that is not null,
    issues exactly one [recv] on the stored descriptor with the buffer, the
    length and the flag word as received.  No socket object changes; the
    result is the kernel's count (0 included), or minus [errno] when the
    call returned below zero. *)
Theorem Receive_delegates (this : ref) (buf len : Z) (fl : flags) (st : State W) :
  let c := sys_recv (m_descriptor (heap st this)) buf len fl in
  let outcome := (if k_ret (answer st c) <? 0 then - errno (after st c)
                  else k_ret (answer st c),
                  mkState (heap st) (after st c) (trace st ++ [c])) in
  buf <> nullptr ->
  Receive this buf len fl st = outcome
  /\ Receive_membuf this (mkMembuf buf len) fl st = outcome.
Proof.
  cbv zeta. intros Hbuf. run. cbn [buffer length]. rewrite (eqb_nullptr _ Hbuf).
  repeat split; step; destruct (k_ret r <? 0); reflexivity.
Qed.

(** [Receive] with a sender address, when [recvfrom] fails: the result is
    minus [errno] and the length of the address is the one it had; only
    its bytes are what the kernel left.  One [recvfrom] is issued, with
    capacity [s_MaxSize], and no socket object changes. *)
Theorem Receive_from_failure_keeps_length (this : ref) (buf len : Z)
    (a : Address) (fl : flags) (st : State W) :
  let c := sys_recvfrom (m_descriptor (heap st this)) buf len fl
                        (GetBase a) s_MaxSize in
  buf <> nullptr ->
  k_ret (answer st c) < 0 ->
  Receive_from this buf len a fl st
    = ((- errno (after st c), mkAddress (k_addr (answer st c)) (GetLength a)),
       mkState (heap st) (after st c) (trace st ++ [c]))
  /\ Receive_membuf_from this (mkMembuf buf len) a fl st
     = Receive_from this buf len a fl st.
Proof.
  cbv zeta. intros Hbuf Hret. unfold answer, after in *. run. cbn [buffer length].
  rewrite (eqb_nullptr _ Hbuf). step. rewrite (ltb_neg _ Hret).
  split; reflexivity.
Qed.

(** With a kernel that leaves a positive [errno] behind a failed call,
    the sign of the result tells failure from success: [Send] and [Receive]
    return a negative number exactly when the buffer is null or the call
    returned below zero. *)
Theorem transfer_negative_iff_failed (this : ref) (buf len : Z) (fl : flags)
    (st : State W) :
  let fd := m_descriptor (heap st this) in
  let s := sys_send fd buf len fl in
  let r := sys_recv fd buf len fl in
  (k_ret (answer st s) < 0 -> 0 < errno (after st s)) ->
  (k_ret (answer st r) < 0 -> 0 < errno (after st r)) ->
  (result (Send this buf len fl) st < 0
   <-> buf = nullptr \/ k_ret (answer st s) < 0)
  /\ (result (Receive this buf len fl) st < 0
      <-> buf = nullptr \/ k_ret (answer st r) < 0).
Proof.
  cbv zeta. intros Hs Hr. unfold answer, after in *. run.
  destruct (buf =? nullptr) eqn:Hnull.
  - apply Z.eqb_eq in Hnull. cbn. unfold EINVAL. split; split; intros; auto; lia.
  - apply Z.eqb_neq in Hnull. split.
    + destruct (syscall_step (world st) (sys_send _ _ _ _)) as [x w'].
      cbn [fst snd] in *. destruct (k_ret x <? 0) eqn:Hneg; cbn.
      * apply Z.ltb_lt in Hneg. specialize (Hs Hneg). split; intros; [auto | lia].
      * apply Z.ltb_ge in Hneg. split; [lia | intros [? | ?]; [contradiction | lia]].
    + destruct (syscall_step (world st) (sys_recv _ _ _ _)) as [x w'].
      cbn [fst snd] in *. destruct (k_ret x <? 0) eqn:Hneg; cbn.
      * apply Z.ltb_lt in Hneg. specialize (Hr Hneg). split; intros; [auto | lia].
      * apply Z.ltb_ge in Hneg. split; [lia | intros [? | ?]; [contradiction | lia]].
Qed.
End Transfer.


(** ** Ownership across calls *)
Section Ownership.
Context {W : Type} `{Kernel W}.
Context {D : ESocketDomain} `{AddressOps D}.

(** After a [Pair] that succeeded with two descriptors, both sockets are
    open, so a further [Pair] naming either of them, in either place, and an
    [Open] of either are refused with [-EBUSY] without reaching the
    kernel. *)
Theorem Pair_then_busy (type type' : ESocketType) (o_socket1 o_socket2 other : ref)
    (st : State W) :
  let c := sys_socketpair int_of_domain (int_of_ESocketType type) 0
                          (- EBADFD, - EBADFD) in
  let st1 := final (Pair type o_socket1 o_socket2) st in
  IsOpen (heap st o_socket1) = false ->
  IsOpen (heap st o_socket2) = false ->
  k_ret (answer st c) = 0 ->
  0 <= fst (k_sv (answer st c)) ->
  0 <= snd (k_sv (answer st c)) ->
  (IsOpen (heap st1 o_socket1) = true /\ IsOpen (heap st1 o_socket2) = true)
  /\ Pair type' o_socket1 other st1 = (- EBUSY, st1)
  /\ Pair type' other o_socket2 st1 = (- EBUSY, st1)
  /\ Open o_socket1 type' st1 = (- EBUSY, st1)
  /\ Open o_socket2 type' st1 = (- EBUSY, st1).
Proof.
  cbv zeta. intros H1 H2 Hok Hfst Hsnd.
  assert (Hopen : IsOpen (heap (final (Pair type o_socket1 o_socket2) st) o_socket1) = true
                  /\ IsOpen (heap (final (Pair type o_socket1 o_socket2) st) o_socket2) = true).
  { unfold answer in *. run. rewrite H1, H2. cbn [orb]. step. rewrite Hok. cbn.
    split.
    - destruct (decide (o_socket2 = o_socket1)) as [-> | Hne].
      + rewrite fn_lookup_insert. apply IsOpen_nonneg, Hsnd.
      + rewrite fn_lookup_insert_ne by exact Hne.
        rewrite fn_lookup_insert. apply IsOpen_nonneg, Hfst.
    - rewrite fn_lookup_insert. apply IsOpen_nonneg, Hsnd. }
  destruct Hopen as [Ho1 Ho2].
  remember (final (Pair type o_socket1 o_socket2) st) as st1 eqn:Hst1. clear Hst1.
  split; [split; assumption |].
  run. rewrite Ho1, Ho2. cbn [orb]. rewrite orb_true_r. repeat split.
Qed.

(** A socket that was shut down explicitly is left alone by its
    destructor: after [Shutdown], in whatever state it was called, the
    destructor issues no system call and changes nothing, so the descriptor
    is not closed a second time. *)
Theorem destructor_after_Shutdown (this : ref) (st : State W) :
  let st1 := final (Shutdown this) st in
  Socket_destructor this st1 = (tt, st1).
Proof.
  cbv zeta.
  assert (Hclosed : IsOpen (heap (final (Shutdown this) st) this) = false).
  { run. step. destruct (IsOpen (heap st this)) eqn:Hopen.
    - step. rewrite fn_lookup_insert. reflexivity.
    - cbn. exact Hopen. }
  remember (final (Shutdown this) st) as st1 eqn:Hst1. clear Hst1.
  unfold Socket_destructor, bind, load, ret. cbn. rewrite Hclosed. reflexivity.
Qed.

(** One call that is neither [Shutdown] nor the destructor leaves every
    open socket object as it is. *)
Lemma perform_keeps_open (q : request) (r : ref) (st : State W) :
  releases q = false ->
  IsOpen (heap st r) = true ->
  heap (final (perform q) st) r = heap st r.
Proof.
  intros Hq Hopen.
  assert (Hother : forall o d, IsOpen (heap st o) = false ->
                               <[o := mkFile d]> (heap st) r = heap st r).
  { intros o d Ho. apply fn_lookup_insert_ne. intros ->. congruence. }
  destruct q; try discriminate Hq; unfold perform; run.
  - (* Open *)
    destruct (IsOpen (heap st this)) eqn:Hthis; [reflexivity |].
    step. destruct (k_ret r0 <? 0); cbn; [reflexivity | apply Hother, Hthis].
  - (* Bind *)
    destruct (negb (IsValid localAddress)); [reflexivity |].
    step. destruct (negb (k_ret r0 =? 0)); reflexivity.
  - (* Listen *)
    step. destruct (k_ret r0 <? 0); reflexivity.
  - (* Connect *)
    step. destruct (negb (k_ret r0 =? 0)); reflexivity.
  - (* Accept *)
    destruct (IsOpen (heap st o_client)) eqn:Hclient; [reflexivity |].
    step. destruct (k_ret r0 <? 0); cbn; [reflexivity | apply Hother, Hclient].
  - (* Accept with an address *)
    destruct (IsOpen (heap st o_client)) eqn:Hclient; [reflexivity |].
    step. destruct (k_ret r0 <? 0); cbn; [reflexivity | apply Hother, Hclient].
  - (* Send *)
    destruct (buf =? nullptr); [reflexivity |].
    step. destruct (k_ret r0 <? 0); reflexivity.
  - (* Send to a destination *)
    destruct (buf =? nullptr); [reflexivity |].
    step. destruct (k_ret r0 <? 0); reflexivity.
  - (* Receive *)
    destruct (buf =? nullptr); [reflexivity |].
    step. destruct (k_ret r0 <? 0); reflexivity.
  - (* Receive with the sender *)
    destruct (buf =? nullptr); [reflexivity |].
    step. destruct (k_ret r0 <? 0); reflexivity.
  - (* Pair *)
    destruct (IsOpen (heap st o_socket1)) eqn:H1; [reflexivity |].
    destruct (IsOpen (heap st o_socket2)) eqn:H2; [reflexivity |].
    cbn [orb]. step. destruct (negb (k_ret r0 =? 0)); cbn; [reflexivity |].
    rewrite fn_lookup_insert_ne by (intros ->; congruence).
    apply Hother, H1.
Qed.

(** No call but [Shutdown] and the destructor ever replaces or gives up a
    descriptor in use: through any sequence of the other calls, on whatever
    objects and with whatever answers of the kernel, a socket object that
    is open keeps the descriptor it has. *)
Theorem live_descriptor_kept (qs : list request) (r : ref) (st : State W) :
  forallb (fun q => negb (releases q)) qs = true ->
  IsOpen (heap st r) = true ->
  heap (final (perform_all qs) st) r = heap st r.
Proof.
  revert st. induction qs as [| q qs IH]; intros st Hqs Hopen; [reflexivity |].
  cbn in Hqs. apply andb_true_iff in Hqs. destruct Hqs as [Hq Hrest].
  apply negb_true_iff in Hq.
  pose proof (perform_keeps_open q r st Hq Hopen) as Hstep.
  unfold final in *. cbn [perform_all]. unfold bind, ret.
  destruct (perform q st) as [x st1]. cbn [snd] in Hstep.
  specialize (IH st1 Hrest). rewrite Hstep in IH. specialize (IH Hopen).
  destruct (perform_all qs st1) as [xs st2]. cbn [snd] in *.
  exact IH.
Qed.
End Ownership.

(** ** System calls per call *)
Section Calls.
Context {W : Type} `{Kernel W}.
Context {D : ESocketDomain} `{AddressOps D}.

Lemma extends_by_none (t : list syscall) (n : nat) :
  exists t', t = t ++ t' /\ (List.length t' <= n)%nat.
Proof. exists []. split; [symmetry; apply app_nil_r | cbn; lia]. Qed.

Lemma extends_by_one (t : list syscall) (c : syscall) (n : nat) :
  exists t', t ++ [c] = t ++ t' /\ (List.length t' <= S n)%nat.
Proof. exists [c]. split; [reflexivity | cbn; lia]. Qed.

Lemma extends_by_two (t : list syscall) (c c' : syscall) :
  exists t', (t ++ [c]) ++ [c'] = t ++ t' /\ (List.length t' <= 2)%nat.
Proof. exists [c; c']. split; [rewrite <- app_assoc; reflexivity | cbn; lia]. Qed.

(** One call only appends to the trace: at most one system call, at most
    two for [Shutdown] and the destructor. *)
Lemma perform_calls (q : request) (st : State W) :
  exists t, trace (final (perform q) st) = trace st ++ t
            /\ (List.length t <= if releases q then 2 else 1)%nat.
Proof.
  destruct q; unfold perform, releases; run;
    repeat match goal with
      | |- context [syscall_step ?w ?c] =>
          destruct (syscall_step w c) as [? ?]; cbn [fst snd heap world trace]
      | |- context [if ?b then _ else _] =>
          destruct b; cbn [fst snd heap world trace]
      end;
    first [apply extends_by_none | apply extends_by_one | apply extends_by_two].
Qed.

(** No member function calls the kernel twice for one request, whatever the
    kernel answers (a failed or interrupted call is not tried again):
    a sequence of calls adds to the trace, behind what was there, at most
    one system call for each call and one more for each [Shutdown] or
    destruction. *)
Theorem calls_bounded (qs : list request) (st : State W) :
  exists t, trace (final (perform_all qs) st) = trace st ++ t
            /\ (List.length t
                <= List.length qs + List.length (List.filter releases qs))%nat.
Proof.
  revert st. induction qs as [| q qs IH]; intros st.
  - exists []. split; [symmetry; apply app_nil_r | cbn; lia].
  - destruct (perform_calls q st) as (t1 & Ht1 & Hn1).
    unfold final in *. cbn [perform_all]. unfold bind, ret.
    destruct (perform q st) as [x st1]. cbn [snd] in Ht1.
    destruct (IH st1) as (t2 & Ht2 & Hn2).
    destruct (perform_all qs st1) as [xs st2]. cbn [snd] in *.
    exists (t1 ++ t2). split.
    + rewrite Ht2, Ht1. symmetry. apply app_assoc.
    + rewrite List.length_app. cbn [List.filter].
      destruct (releases q); cbn [List.length]; lia.
Qed.
End Calls.

(** ** Independence of socket objects *)
Section Frame.
Context {W : Type} `{Kernel W}.
Context {D : ESocketDomain} `{AddressOps D}.

Lemma perform_frame (q : request) (r : ref) (st : State W) :
  ~ In r (assigned q) ->
  heap (final (perform q) st) r = heap st r.
Proof.
  intros Hr.
  assert (Hother : forall o d (h : ref -> File), o <> r -> <[o := mkFile d]> h r = h r).
  { intros o d h Ho. apply fn_lookup_insert_ne. exact Ho. }
  destruct q; unfold perform; cbn [assigned] in Hr; run;
    repeat match goal with
      | |- context [syscall_step ?w ?c] =>
          destruct (syscall_step w c) as [? ?]; cbn [fst snd heap world trace]
      | |- context [if ?b then _ else _] =>
          destruct b; cbn [fst snd heap world trace]
      end;
    try reflexivity;
    repeat (rewrite Hother; [| intros ->; apply Hr; cbn; tauto]);
    reflexivity.
Qed.

(** Socket objects are independent: through any sequence of calls, an
    object that no call opens, accepts into, pairs or shuts down keeps its
    descriptor, open or closed.  In particular a listening socket is not
    changed by accepting from it, nor a socket by sending or receiving on
    it, binding, listening or connecting it. *)
Theorem unassigned_object_unchanged (qs : list request) (r : ref) (st : State W) :
  Forall (fun q => ~ In r (assigned q)) qs ->
  heap (final (perform_all qs) st) r = heap st r.
Proof.
  intros Hqs. revert st. induction Hqs as [| q qs Hq _ IH]; intros st; [reflexivity |].
  pose proof (perform_frame q r st Hq) as Hstep.
  unfold final in *. cbn [perform_all]. unfold bind, ret.
  destruct (perform q st) as [x st1]. cbn [snd] in Hstep.
  specialize (IH st1).
  destruct (perform_all qs st1) as [xs st2]. cbn [snd] in *.
  rewrite IH. exact Hstep.
Qed.
End Frame.

(** ** The further theorems at concrete inputs *)

Lemma Open_acquires_witness :
  let st := start all_closed [(mkReply 3 [] 0 (0, 0), 0)] in
  result (Open (D := Unix) 0%nat Stream) st = 0
  /\ heap (final (Open (D := Unix) 0%nat Stream) st) 0%nat = mkFile 3
  /\ heap (final (Open (D := Unix) 0%nat Stream) st) 1%nat = mkFile (- EBADFD).
Proof.
  cbv zeta.
  pose proof (Open_acquires (D := Unix) 0%nat Stream
                (start all_closed [(mkReply 3 [] 0 (0, 0), 0)])) as P.
  cbv zeta in P.
  destruct (P eq_refl ltac:(vm_compute; discriminate)) as (E & _ & Hother).
  split; [unfold result; rewrite E; reflexivity |].
  split; [unfold final; rewrite E; reflexivity |].
  rewrite Hother by discriminate. reflexivity.
Defined.

Lemma Open_failure_keeps_closed_witness :
  let st := start all_closed [(mkReply (-1) [] 0 (0, 0), EMFILE)] in
  result (Open (D := Unix) 0%nat Datagram) st = - EMFILE
  /\ IsOpen (heap (final (Open (D := Unix) 0%nat Datagram) st) 0%nat) = false.
Proof.
  cbv zeta.
  pose proof (Open_failure_keeps_closed (D := Unix) 0%nat Datagram
                (start all_closed [(mkReply (-1) [] 0 (0, 0), EMFILE)])) as P.
  cbv zeta in P.
  destruct (P eq_refl eq_refl) as (E & Hclosed).
  split; [unfold result; rewrite E; reflexivity | exact Hclosed].
Defined.

Lemma Open_after_Open_witness :
  let st := start all_closed [(mkReply 3 [] 0 (0, 0), 0); (mkReply 4 [] 0 (0, 0), 0)] in
  let st1 := final (Open (D := Unix) 0%nat Stream) st in
  Open (D := Unix) 0%nat Datagram st1 = (- EBUSY, st1)
  /\ m_descriptor (heap st1 0%nat) = 3.
Proof.
  cbv zeta.
  pose proof (Open_after_Open (D := Unix) 0%nat Stream Datagram
                (start all_closed
                   [(mkReply 3 [] 0 (0, 0), 0); (mkReply 4 [] 0 (0, 0), 0)])) as P.
  cbv zeta in P.
  exact (P eq_refl ltac:(vm_compute; discriminate)).
Defined.

Lemma Accept_adopts_witness :
  let st := start (<[0%nat := mkFile 3]> all_closed)
                  [(mkReply 5 (repeat x41 110) 16 (0, 0), 0)] in
  let a := mkAddress (repeat x00 110) 0 in
  fst (result (Accept_address (D := Unix) 0%nat 1%nat a) st) = 0
  /\ IsOpen (heap (final (Accept_address (D := Unix) 0%nat 1%nat a) st) 1%nat) = true
  /\ heap (final (Accept_address (D := Unix) 0%nat 1%nat a) st) 0%nat = mkFile 3.
Proof.
  cbv zeta.
  pose proof (Accept_adopts (D := Unix) 0%nat 1%nat (mkAddress (repeat x00 110) 0)
                (start (<[0%nat := mkFile 3]> all_closed)
                       [(mkReply 5 (repeat x41 110) 16 (0, 0), 0)])) as P.
  cbv zeta in P.
  destruct (P eq_refl ltac:(vm_compute; discriminate)) as (Hr & _ & Hopen & _ & Hother).
  split; [exact Hr | split; [exact Hopen |]].
  rewrite Hother by discriminate. reflexivity.
Defined.

Lemma Accept_failure_keeps_client_witness :
  let st := start (<[0%nat := mkFile 3]> all_closed)
                  [(mkReply (-1) (repeat x00 110) 110 (0, 0), EMFILE)] in
  let a := mkAddress (repeat x00 110) 7 in
  result (Accept_address (D := Unix) 0%nat 1%nat a) st = (- EMFILE, a)
  /\ IsOpen (heap (final (Accept_address (D := Unix) 0%nat 1%nat a) st) 1%nat) = false.
Proof.
  cbv zeta.
  pose proof (Accept_failure_keeps_client (D := Unix) 0%nat 1%nat
                (mkAddress (repeat x00 110) 7)
                (start (<[0%nat := mkFile 3]> all_closed)
                       [(mkReply (-1) (repeat x00 110) 110 (0, 0), EMFILE)])) as P.
  cbv zeta in P.
  destruct (P eq_refl eq_refl) as (E & Hclosed).
  split; [unfold result; rewrite E; reflexivity | exact Hclosed].
Defined.

Lemma Accept_after_Accept_witness :
  let st := start (<[2%nat := mkFile 4]> (<[0%nat := mkFile 3]> all_closed))
                  [(mkReply 5 (repeat x41 110) 16 (0, 0), 0);
                   (mkReply 6 (repeat x41 110) 16 (0, 0), 0)] in
  let a := mkAddress (repeat x00 110) 0 in
  let st1 := final (Accept_address (D := Unix) 0%nat 1%nat a) st in
  Accept_address (D := Unix) 2%nat 1%nat a st1 = ((- EBUSY, a), st1)
  /\ Accept (D := Unix) 2%nat 1%nat st1 = (- EBUSY, st1)
  /\ m_descriptor (heap st1 1%nat) = 5.
Proof.
  cbv zeta.
  pose proof (Accept_after_Accept (D := Unix) 0%nat 2%nat 1%nat
                (mkAddress (repeat x00 110) 0) (mkAddress (repeat x00 110) 0)
                (start (<[2%nat := mkFile 4]> (<[0%nat := mkFile 3]> all_closed))
                       [(mkReply 5 (repeat x41 110) 16 (0, 0), 0);
                        (mkReply 6 (repeat x41 110) 16 (0, 0), 0)])) as P.
  cbv zeta in P.
  exact (P eq_refl ltac:(vm_compute; discriminate)).
Defined.

Lemma Send_delegates_witness :
  let st := start (<[0%nat := mkFile 3]> all_closed) [(mkReply 4 [] 0 (0, 0), 0)] in
  let dest := mkAddress (repeat x2f 110) 7 in
  Send 0%nat 4096 4 MSG_NOSIGNAL st
    = (4, mkState (heap st) (mkScript [] 0) [sys_send 3 4096 4 MSG_NOSIGNAL])
  /\ Send_to 0%nat 4096 4 dest 0 st
     = (4, mkState (heap st) (mkScript [] 0) [sys_sendto 3 4096 4 0 (repeat x2f 110) 7]).
Proof.
  cbv zeta. split.
  - pose proof (Send_delegates 0%nat 4096 4 (mkAddress [] 0) MSG_NOSIGNAL
                  (start (<[0%nat := mkFile 3]> all_closed)
                         [(mkReply 4 [] 0 (0, 0), 0)])) as P.
    cbv zeta in P.
    destruct (P ltac:(vm_compute; discriminate)) as (E & _).
    rewrite E. reflexivity.
  - pose proof (Send_delegates 0%nat 4096 4 (mkAddress (repeat x2f 110) 7) 0
                  (start (<[0%nat := mkFile 3]> all_closed)
                         [(mkReply 4 [] 0 (0, 0), 0)])) as P.
    cbv zeta in P.
    destruct (P ltac:(vm_compute; discriminate)) as (_ & E & _).
    rewrite E. reflexivity.
Defined.

Lemma Receive_delegates_witness :
  let st := start (<[0%nat := mkFile 3]> all_closed) [(mkReply 0 [] 0 (0, 0), 0)] in
  Receive 0%nat 4096 16 MSG_DONTWAIT st
    = (0, mkState (heap st) (mkScript [] 0) [sys_recv 3 4096 16 MSG_DONTWAIT]).
Proof.
  cbv zeta.
  pose proof (Receive_delegates 0%nat 4096 16 MSG_DONTWAIT
                (start (<[0%nat := mkFile 3]> all_closed)
                       [(mkReply 0 [] 0 (0, 0), 0)])) as P.
  cbv zeta in P.
  destruct (P ltac:(vm_compute; discriminate)) as (E & _).
  rewrite E. reflexivity.
Defined.

Lemma Receive_from_failure_keeps_length_witness :
  let st := start (<[0%nat := mkFile 3]> all_closed)
                  [(mkReply (-1) (repeat x41 110) 111 (0, 0), 11)] in
  let a := mkAddress (repeat x00 110) 7 in
  result (Receive_from (D := Unix) 0%nat 4096 16 a 0) st
    = (- 11, mkAddress (repeat x41 110) 7).
Proof.
  cbv zeta.
  pose proof (Receive_from_failure_keeps_length (D := Unix) 0%nat 4096 16
                (mkAddress (repeat x00 110) 7) 0
                (start (<[0%nat := mkFile 3]> all_closed)
                       [(mkReply (-1) (repeat x41 110) 111 (0, 0), 11)])) as P.
  cbv zeta in P.
  destruct (P ltac:(vm_compute; discriminate) eq_refl) as (E & _).
  unfold result. rewrite E. reflexivity.
Defined.

Lemma transfer_negative_iff_failed_witness :
  let st := start (<[0%nat := mkFile 3]> all_closed) [(mkReply (-1) [] 0 (0, 0), 32)] in
  result (Send 0%nat 4096 4 0) st < 0 /\ result (Receive 0%nat 4096 4 0) st < 0.
Proof.
  cbv zeta.
  pose proof (transfer_negative_iff_failed 0%nat 4096 4 0
                (start (<[0%nat := mkFile 3]> all_closed)
                       [(mkReply (-1) [] 0 (0, 0), 32)])) as P.
  cbv zeta in P.
  destruct (P (fun _ => eq_refl) (fun _ => eq_refl)) as (Hs & Hr).
  split; [apply Hs | apply Hr]; right; reflexivity.
Defined.

Lemma Pair_then_busy_witness :
  let st := start all_closed [(mkReply 0 [] 0 (5, 6), 0); (mkReply 0 [] 0 (7, 8), 0)] in
  let st1 := final (Pair (D := Unix) SeqPacket 0%nat 1%nat) st in
  Pair (D := Unix) Stream 0%nat 2%nat st1 = (- EBUSY, st1)
  /\ Pair (D := Unix) Stream 2%nat 1%nat st1 = (- EBUSY, st1)
  /\ Open (D := Unix) 0%nat Stream st1 = (- EBUSY, st1)
  /\ Open (D := Unix) 1%nat Stream st1 = (- EBUSY, st1).
Proof.
  cbv zeta.
  pose proof (Pair_then_busy (D := Unix) SeqPacket Stream 0%nat 1%nat 2%nat
                (start all_closed
                   [(mkReply 0 [] 0 (5, 6), 0); (mkReply 0 [] 0 (7, 8), 0)])) as P.
  cbv zeta in P.
  destruct (P eq_refl eq_refl eq_refl ltac:(vm_compute; discriminate)
              ltac:(vm_compute; discriminate)) as (_ & Hrest).
  exact Hrest.
Defined.

Lemma live_descriptor_kept_witness :
  let st := start (<[0%nat := mkFile 3]> all_closed)
                  [(mkReply 9 [] 0 (10, 11), 0); (mkReply 9 [] 0 (10, 11), 0)] in
  let qs := [DoOpen 0%nat Stream; DoAccept 1%nat 0%nat;
             DoPair SeqPacket 0%nat 2%nat; DoSend 0%nat 4096 4 0] in
  heap (final (perform_all (D := Unix) qs) st) 0%nat = mkFile 3.
Proof.
  cbv zeta.
  exact (live_descriptor_kept (D := Unix)
           [DoOpen 0%nat Stream; DoAccept 1%nat 0%nat;
            DoPair SeqPacket 0%nat 2%nat; DoSend 0%nat 4096 4 0]
           0%nat
           (start (<[0%nat := mkFile 3]> all_closed)
                  [(mkReply 9 [] 0 (10, 11), 0); (mkReply 9 [] 0 (10, 11), 0)])
           eq_refl eq_refl).
Defined.

Lemma unassigned_object_unchanged_witness :
  let st := start (<[0%nat := mkFile 3]> all_closed)
                  [(mkReply 5 (repeat x41 110) 16 (0, 0), 0);
                   (mkReply 4 [] 0 (0, 0), 0)] in
  let qs := [DoAccept 0%nat 1%nat; DoSend 1%nat 4096 4 0; DoShutdown 1%nat] in
  heap (final (perform_all (D := Unix) qs) st) 0%nat = mkFile 3.
Proof.
  cbv zeta.
  apply (unassigned_object_unchanged (D := Unix)
           [DoAccept 0%nat 1%nat; DoSend 1%nat 4096 4 0; DoShutdown 1%nat]
           0%nat).
  repeat constructor; cbn; intros Hin;
    repeat (destruct Hin as [Hin | Hin]; [discriminate Hin |]); exact Hin.
Defined.
